(** * Exam application (Flask, [app.py]): session lifecycle, selection,
      timer, submission, scoring and the CSV import/export pair.

    The request handlers of [app.py] are embedded as functions on an
    explicit state: the relational store ([Db], one list of rows per
    table, in table order) and the Flask [session] (a finite map from
    string keys to values).  Clock readings and random draws are
    arguments of the handlers that use them. *)

From Stdlib Require Import ZArith QArith Floats Uint63 Ascii Permutation Lia.
From stdpp Require Import gmap strings list fin_maps pretty.

Close Scope Q_scope.
Close Scope float_scope.
Local Open Scope string_scope.
Local Open Scope list_scope.
Local Open Scope Z_scope.

(** ** Python built-ins used by the handlers *)

(** [str.strip] and [str.lower] act on Unicode text and are library
    code; the handlers are parametrised by them. *)
Class StrOps := {
  str_strip : string → string;
  str_lower : string → string
}.

(** [s.split(sep)] for a one-character separator: always at least one
    piece, empty pieces kept. *)
Fixpoint str_split (sep : Ascii.ascii) (s : string) : list string :=
  match s with
  | EmptyString => [EmptyString]
  | String c s' =>
      if Ascii.eqb c sep then EmptyString :: str_split sep s'
      else match str_split sep s' with
           | [] => [String c EmptyString]
           | w :: ws => String c w :: ws
           end
  end.

(** [sep.join(l)]. *)
Fixpoint str_join (sep : string) (l : list string) : string :=
  match l with
  | [] => ""
  | [x] => x
  | x :: xs => x +:+ sep +:+ str_join sep xs
  end.

(** [str(n)] for an integer. *)
Definition str_of_int (n : Z) : string := pretty n.

(** [int(x)] for a float: truncation towards zero.  Timestamps are the
    rational values of the floats the clock returns; for two epoch
    timestamps within a factor two of each other the binary64
    subtraction is exact, so [now - start_time] is the rational
    difference. *)
Definition py_int (x : Q) : Z := Z.quot (Qnum x) (Zpos (Qden x)).

(** [float(n)] for an integer below 2^63 in magnitude (row counts). *)
Definition float_of_int (n : Z) : float :=
  if n <? 0 then PrimFloat.opp (PrimFloat.of_uint63 (Uint63.of_Z (- n)))
  else PrimFloat.of_uint63 (Uint63.of_Z n).

(** An operation either returns or raises a Python exception. *)
Inductive outcome (A : Type) : Type :=
  | Returned (a : A)
  | Raised (exc : string).
Arguments Returned {A} a.
Arguments Raised {A} exc.

(** ** [random.sample]

    CPython's pool algorithm: the [i]-th iteration draws
    [j = randbelow(n - i)], takes [pool[j]] and overwrites slot [j] with
    the last live slot [pool[n - i - 1]].  The draws come from an oracle
    [rng]; the [i]-th draw is reduced modulo its bound.  Every list of
    [k] distinct positions arises from some oracle, so the definition
    also covers the rejection-sampling branch CPython uses for large
    populations. *)
Section Sample.
Context {A : Type}.

Fixpoint sample_loop (rng : nat → nat) (pool : list A) (m i k : nat)
  : list A :=
  match k with
  | O => []
  | S k' =>
      let j := (rng i mod m)%nat in
      match pool !! j, pool !! (m - 1)%nat with
      | Some x, Some y =>
          x :: sample_loop rng (<[j := y]> pool) (m - 1) (S i) k'
      | _, _ => []
      end
  end.

Definition random_sample (rng : nat → nat) (population : list A) (k : Z)
  : outcome (list A) :=
  let n := length population in
  if decide (0 ≤ k ∧ k ≤ Z.of_nat n)
  then Returned (sample_loop rng population n 0 (Z.to_nat k))
  else Raised "ValueError".
End Sample.

(** ** Tables *)

Module Exam.
Record t := mk {
  id : Z;
  name : string;
  duration : Z;
  total_questions : Z;
  pass_rate : float;
  exam_date : string;
  mode : string
}.
End Exam.

Module Question.
Record t := mk {
  id : Z;
  exam_id : Z;
  question_text : string;
  choices : string;
  correct_answer : string
}.
End Question.

(** The surrogate key [Answer.id] is never read and is left out. *)
Module Answer.
Record t := mk {
  student_name : string;
  exam_id : Z;
  question_id : Z;
  selected_answer : string
}.
End Answer.

#[global] Instance Question_eq_dec : EqDecision Question.t.
Proof. solve_decision. Defined.
#[global] Instance Answer_eq_dec : EqDecision Answer.t.
Proof. solve_decision. Defined.

(** [question_seq] is the next primary key the store hands out for a
    new [Question] row. *)
Record Db := mkDb {
  exams : list Exam.t;
  questions : list Question.t;
  answers : list Answer.t;
  question_seq : Z
}.

(** [db.session.get(Exam, exam_id)] *)
Definition get_exam (db : Db) (exam_id : Z) : option Exam.t :=
  List.find (λ e, bool_decide (Exam.id e = exam_id)) (exams db).

(** [Question.query.filter_by(exam_id=exam_id).all()] *)
Definition questions_of_exam (db : Db) (exam_id : Z) : list Question.t :=
  filter (λ q, Question.exam_id q = exam_id) (questions db).

(** [Answer.query.filter_by(student_name=..., exam_id=...)] *)
Definition answer_of (student_name : string) (exam_id : Z) (a : Answer.t)
  : Prop :=
  Answer.student_name a = student_name ∧ Answer.exam_id a = exam_id.

#[global] Instance answer_of_dec s e a : Decision (answer_of s e a).
Proof. unfold answer_of. apply _. Defined.

Definition answers_of (db : Db) (student_name : string) (exam_id : Z)
  : list Answer.t :=
  filter (answer_of student_name exam_id) (answers db).

(** ** The Flask session *)

Inductive session_value :=
  | V_str (s : string)
  | V_float (t : Q)
  | V_ids (l : list Z)
  | V_flashes (l : list (string * string))
  | V_bool (b : bool).

Abbreviation Session := (gmap string session_value).

(** The three f-string keys of an attempt.  Exam ids are integers (the
    primary key of [Exam]); a request carries one in decimal. *)
Definition key_mode (exam_id : Z) (student_name : string) : string :=
  "exam_" +:+ str_of_int exam_id +:+ "_mode_" +:+ student_name.

Definition key_start_time (exam_id : Z) (student_name : string) : string :=
  "exam_" +:+ str_of_int exam_id +:+ "_start_time_" +:+ student_name.

Definition key_question_ids (exam_id : Z) : string :=
  "exam_" +:+ str_of_int exam_id +:+ "_question_ids".

(** [flash(message)] appends to the session's [_flashes] queue. *)
Definition flash (message : string) (session : Session) : Session :=
  let queued := match session !! "_flashes" with
                | Some (V_flashes l) => l
                | _ => []
                end in
  <["_flashes" := V_flashes (queued ++ [("message", message)])]> session.

(** [session.get(key, "exam")] for a mode entry. *)
Definition session_get_mode (session : Session) (key : string) : string :=
  match session !! key with
  | Some (V_str m) => m
  | _ => "exam"
  end.

(** [session.get(key, [])] for a question-id entry. *)
Definition session_get_ids (session : Session) (key : string) : list Z :=
  match session !! key with
  | Some (V_ids l) => l
  | _ => []
  end.

(** ** Pass/fail: [is_pass]

    [score >= total * pass_rate] with [pass_rate] a binary64 float: the
    product is the rounded float product, as in Python. *)
Definition is_pass (score total : Z) (pass_rate : float) : bool :=
  PrimFloat.leb (PrimFloat.mul (float_of_int total) pass_rate)
                (float_of_int score).

(** ** Responses *)

Inductive start_response :=
  | Start_redirect
  | Start_render (student_name : string) (exam_id : Z)
      (remaining_seconds : option Z) (mode : string).

Record question_view := mkView {
  view_id : Z;
  view_question_text : string;
  view_choices : list string
}.

Record load_response := mkLoad {
  load_questions : list question_view;
  effective_total : nat;
  load_mode : option string
}.

Inductive submit_status := Status_ok | Status_error.

Record question_result := mkResult {
  res_question_text : string;
  res_selected_answer : string;
  res_correct_answer : string;
  res_is_correct : bool
}.

Inductive result_response :=
  | Result_redirect
  | Result_render (student_name : string) (total : Z) (max_score : Z)
      (question_results : list question_result) (status : string).

(** A CSV file as the [csv] module sees it: whether the text starts with
    a byte-order mark, and its rows of cells.  [csv.writer] followed by
    [csv.reader] is taken to return the rows written. *)
Record csv_file := mkCsv {
  bom : bool;
  rows : list (list string)
}.

(** The sentinel stored for a question the client sent no value for. *)
Definition unanswered : string := "未回答".

(** ** Request handlers *)

Section Handlers.
Context `{StrOps}.

(** *** [/start_exam] *)

(** Lines 101-106: the timer shown to the student. *)
Definition remaining_seconds (duration : Z) (mode : string)
    (start_time now : Q) : option Z :=
  if decide (mode = "exam") then
    let remaining := duration * 60 - py_int (now - start_time)%Q in
    Some (if remaining <? 0 then 0 else remaining)
  else None.

(** [now_stamp] is the clock reading used to stamp a new attempt,
    [now_timer] the later reading used for the timer. *)
Definition start_exam (form_student_name : string)
    (form_exam_id : option Z) (form_mode : option string)
    (now_stamp now_timer : Q) (db : Db) (session : Session)
  : outcome start_response * Session :=
  let student_name := str_strip form_student_name in
  let mode := default "exam" form_mode in
  match form_exam_id with
  | None =>
      (Returned Start_redirect,
       flash "お名前と試験を選択してください" session)
  | Some exam_id =>
      if decide (student_name = "") then
        (Returned Start_redirect,
         flash "お名前と試験を選択してください" session)
      else
        match get_exam db exam_id with
        | None =>
            (Returned Start_redirect,
             flash "選択した試験は存在しません" session)
        | Some exam =>
            let session1 :=
              <[key_mode exam_id student_name := V_str mode]> session in
            let session_key := key_start_time exam_id student_name in
            let session2 :=
              match session1 !! session_key with
              | Some _ => session1
              | None => <[session_key := V_float now_stamp]> session1
              end in
            match session2 !! session_key with
            | Some (V_float start_time) =>
                (Returned
                   (Start_render student_name exam_id
                      (remaining_seconds (Exam.duration exam) mode
                         start_time now_timer)
                      mode),
                 session2)
            | Some _ =>
                (if decide (mode = "exam") then Raised "TypeError"
                 else Returned (Start_render student_name exam_id None mode),
                 session2)
            | None => (Raised "KeyError", session2)
            end
        end
  end.

(** *** [/load_questions] *)

Definition view_of (q : Question.t) : question_view :=
  mkView (Question.id q) (Question.question_text q)
    (filter (λ c, str_strip c ≠ "") (str_split "|"%char (Question.choices q))).

Definition load_exam_questions (rng : nat → nat) (exam_id : Z)
    (student_name : string) (db : Db) (session : Session)
  : outcome load_response * Session :=
  match get_exam db exam_id with
  | None => (Returned (mkLoad [] 0 None), session)
  | Some exam =>
      let questions := questions_of_exam db exam_id in
      match random_sample rng questions
              (Z.min (Exam.total_questions exam)
                     (Z.of_nat (length questions))) with
      | Raised exc => (Raised exc, session)
      | Returned selected =>
          let session' :=
            <[key_question_ids exam_id := V_ids (Question.id <$> selected)]>
              session in
          let mode :=
            session_get_mode session' (key_mode exam_id student_name) in
          (Returned
             (mkLoad (view_of <$> selected) (length selected) (Some mode)),
           session')
      end
  end.

(** *** [/check_answer] *)

(** [db.session.get(Question, question_id)] *)
Definition get_question (db : Db) (question_id : Z) : option Question.t :=
  List.find (λ q, bool_decide (Question.id q = question_id)) (questions db).

(** [None] is the 400 response; otherwise the pair
    [(is_correct, correct_answer)] of the JSON body. *)
Definition check_answer (exam_id question_id : Z) (data_selected : string)
    (db : Db) : option (bool * option string) :=
  let selected := str_strip data_selected in
  match get_exam db exam_id, get_question db question_id with
  | Some exam, Some question =>
      if decide (Question.exam_id question ≠ Exam.id exam) then None
      else
        let correct := str_strip (Question.correct_answer question) in
        let ok := bool_decide (str_lower selected = str_lower correct) in
        Some (ok, if ok then None else Some correct)
  | _, _ => None
  end.

(** *** [/submit_exam] *)

Definition new_answer (student_name : string) (exam_id : Z)
    (submitted : gmap string string) (qid : Z) : Answer.t :=
  Answer.mk student_name exam_id qid
    (default unanswered (submitted !! str_of_int qid)).

(** Lines 190-192: the three [session.pop] calls. *)
Definition cleared (exam_id : Z) (student_name : string) (session : Session)
  : Session :=
  delete (key_mode exam_id student_name)
    (delete (key_question_ids exam_id)
       (delete (key_start_time exam_id student_name) session)).

Definition submit_exam (data_student_name : string) (exam_id : Z)
    (submitted : gmap string string) (db : Db) (session : Session)
  : submit_status * Db * Session :=
  let student_name := str_strip data_student_name in
  let question_ids := session_get_ids session (key_question_ids exam_id) in
  match question_ids with
  | [] => (Status_error, db, flash "試験データが不正です" session)
  | _ :: _ =>
      let mode := session_get_mode session (key_mode exam_id student_name) in
      let db' :=
        if decide (mode ≠ "study") then
          let kept :=
            filter (λ a, ¬ answer_of student_name exam_id a) (answers db) in
          mkDb (exams db) (questions db)
            (kept ++ (new_answer student_name exam_id submitted
                        <$> question_ids))
            (question_seq db)
        else db in
      (Status_ok, db', cleared exam_id student_name session)
  end.

(** *** [/result] *)

(** The dict comprehension [{a.question_id: a.selected_answer ...}]:
    a later row overwrites an earlier one with the same question. *)
Definition answer_map_of (answers : list Answer.t) : gmap Z string :=
  foldl (λ m a, <[Answer.question_id a := Answer.selected_answer a]> m)
        ∅ answers.

Definition is_correct (sel correct_answer : string) : bool :=
  bool_decide (sel ≠ unanswered)
  && bool_decide (str_lower (str_strip sel)
                  = str_lower (str_strip correct_answer)).

(** One iteration of the scoring loop. *)
Definition score_step (answer_map : gmap Z string)
    (acc : Z * list question_result) (q : Question.t)
  : Z * list question_result :=
  let '(correct, results) := acc in
  let sel := default unanswered (answer_map !! Question.id q) in
  let ok := is_correct sel (Question.correct_answer q) in
  (if ok then correct + 1 else correct,
   results ++ [mkResult (Question.question_text q) sel
                 (Question.correct_answer q) ok]).

Definition result (args_student_name : string) (exam_id : Z)
    (db : Db) (session : Session)
  : outcome result_response * Session :=
  let student_name := str_strip args_student_name in
  let answers := answers_of db student_name exam_id in
  match answers with
  | [] => (Returned Result_redirect, flash "結果が見つかりません" session)
  | _ :: _ =>
      let answer_map := answer_map_of answers in
      let question_ids := Answer.question_id <$> answers in
      let questions :=
        filter (λ q, Question.id q ∈ question_ids) (questions db) in
      let '(correct, results) :=
        foldl (score_step answer_map) (0, []) questions in
      match get_exam db exam_id with
      | None => (Raised "AttributeError", session)
      | Some exam =>
          let status :=
            if is_pass correct (Z.of_nat (length questions))
                 (Exam.pass_rate exam)
            then "合格" else "不合格" in
          (Returned
             (Result_render student_name correct
                (Z.of_nat (length questions)) results status),
           session)
      end
  end.

(** *** CSV import and export *)

Definition row_skipped (row : list string) : bool :=
  bool_decide (length row < 2)%nat
  || forallb (λ cell, bool_decide (str_strip cell = "")) row.

(** The [Question] built from a row that is not skipped; [id] is the
    key the store assigns on insertion. *)
Definition question_of_row (id exam_id : Z) (row : list string)
  : Question.t :=
  Question.mk id exam_id
    (str_strip (nth 0 row ""))
    (str_join "|"
       (filter (λ c, c ≠ "") (str_strip <$> removelast (tail row))))
    (str_strip (List.last row "")).

Definition add_row (exam_id : Z) (db : Db) (row : list string) : Db :=
  if row_skipped row then db
  else mkDb (exams db)
         (questions db ++ [question_of_row (question_seq db) exam_id row])
         (answers db) (question_seq db + 1).

Definition load_questions_from_csv_obj (file : csv_file) (exam_id : Z)
    (db : Db) : Db :=
  foldl (add_row exam_id) db (tail (rows file)).

Definition export_row (q : Question.t) : list string :=
  [ str_of_int (Question.id q);
    Question.question_text q;
    str_join " | " (str_split "|"%char (Question.choices q));
    Question.correct_answer q ].

(** [None] is the 404 of [get_or_404]. *)
Definition export_exam_csv (exam_id : Z) (db : Db) : option csv_file :=
  match get_exam db exam_id with
  | None => None
  | Some _ =>
      Some (mkCsv true
              (["問題ID"; "問題文"; "選択肢"; "正解"]
               :: (export_row <$> questions_of_exam db exam_id)))
  end.
End Handlers.

(** ** What the scoring rules say about one stored answer

    These follow the wording of the scoring rules, not the loop of
    [result]: an answer is correct when its selected value is not the
    sentinel and equals the correct answer of the question it refers to,
    after trimming and ignoring case. *)

Section Scoring.
Context `{StrOps}.

Definition marked_correct (db : Db) (a : Answer.t) : bool :=
  match get_question db (Answer.question_id a) with
  | Some q =>
      bool_decide
        (Answer.selected_answer a ≠ unanswered
         ∧ str_lower (str_strip (Answer.selected_answer a))
           = str_lower (str_strip (Question.correct_answer q)))
  | None => false
  end.

(** The breakdown line of one stored answer. *)
Definition answer_entry (db : Db) (a : Answer.t) : question_result :=
  match get_question db (Answer.question_id a) with
  | Some q =>
      mkResult (Question.question_text q) (Answer.selected_answer a)
        (Question.correct_answer q) (marked_correct db a)
  | None => mkResult "" (Answer.selected_answer a) "" false
  end.

(** The breakdown line the loop of [result] appends for a question. *)
Definition question_entry (answer_map : gmap Z string) (q : Question.t)
  : question_result :=
  let sel := default unanswered (answer_map !! Question.id q) in
  mkResult (Question.question_text q) sel (Question.correct_answer q)
    (is_correct sel (Question.correct_answer q)).
End Scoring.

(** ** Administration *)

(** [/admin/delete_exam/<exam_id>]; [None] is the 404. *)
Definition delete_exam (exam_id : Z) (db : Db) : option Db :=
  match get_exam db exam_id with
  | None => None
  | Some exam =>
      Some (mkDb (filter (λ e, Exam.id e ≠ Exam.id exam) (exams db))
              (filter (λ q, Question.exam_id q ≠ exam_id) (questions db))
              (filter (λ a, Answer.exam_id a ≠ exam_id) (answers db))
              (question_seq db))
  end.

(** ** The operations on ASCII text

    On ASCII text [str.strip] removes the characters 9-13, 28-31 and 32
    from both ends and [str.lower] maps [A-Z] to [a-z]; this instance
    leaves every other byte alone. *)

Definition ascii_is_space (c : ascii) : bool :=
  let n := nat_of_ascii c in
  ((9 <=? n) && (n <=? 13) || (28 <=? n) && (n <=? 32))%nat.

Fixpoint ascii_lstrip (s : string) : string :=
  match s with
  | EmptyString => EmptyString
  | String c s' => if ascii_is_space c then ascii_lstrip s' else s
  end.

Definition ascii_strip (s : string) : string :=
  String.rev (ascii_lstrip (String.rev (ascii_lstrip s))).

Definition ascii_lower_char (c : ascii) : ascii :=
  let n := nat_of_ascii c in
  if ((65 <=? n) && (n <=? 90))%nat then ascii_of_nat (n + 32) else c.

Fixpoint ascii_lower (s : string) : string :=
  match s with
  | EmptyString => EmptyString
  | String c s' => String (ascii_lower_char c) (ascii_lower s')
  end.

Definition ascii_ops : StrOps :=
  {| str_strip := ascii_strip; str_lower := ascii_lower |}.

(** ** Sample data

    One exam of three questions, from which two are drawn. *)

(** The pass rate [admin_upload] stores for 60 percent:
    [pass_rate_percent / 100.0]. *)
Definition pass_rate_60 : float :=
  PrimFloat.div (float_of_int 60) (float_of_int 100).

Definition exam1 : Exam.t :=
  Exam.mk 1 "Basics" 30 2 pass_rate_60 "2024-04-01" "exam".

Definition question1 : Question.t := Question.mk 1 1 "Q1" "A|B|C" "B".
Definition question2 : Question.t := Question.mk 2 1 "Q2" "yes|no" "yes".
Definition question3 : Question.t := Question.mk 3 1 "Q3" "x|y" "x".

Definition db1 : Db :=
  mkDb [exam1] [question1; question2; question3] [] 4.

(** Two oracles: always the first live slot, always the second. *)
Definition rng_first : nat → nat := λ _, 0%nat.
Definition rng_second : nat → nat := λ _, 1%nat.

(** The session after alice has started exam 1 in exam mode at time 100. *)
Definition session_started : Session :=
  (start_exam (H := ascii_ops) "alice" (Some 1) (Some "exam")
     (100 # 1)%Q (100 # 1)%Q db1 ∅).2.

(** The session after alice has then loaded her questions (ids 1, 3). *)
Definition session_loaded : Session :=
  (load_exam_questions (H := ascii_ops) rng_first 1 "alice" db1
     session_started).2.

(** The same two steps for an attempt started in study mode. *)
Definition session_study : Session :=
  (load_exam_questions (H := ascii_ops) rng_first 1 "alice" db1
     (start_exam (H := ascii_ops) "alice" (Some 1) (Some "study")
        (100 # 1)%Q (100 # 1)%Q db1 ∅).2).2.

(** Alice answers question 1 only. *)
Definition submitted1 : gmap string string := {[ "1" := "b" ]}.

(** A store that already holds two answers of alice and one of bob. *)
Definition db_answered : Db :=
  mkDb [exam1] [question1; question2; question3]
    [ Answer.mk "alice" 1 2 "no"; Answer.mk "bob" 1 1 "B";
      Answer.mk "alice" 1 3 "x" ] 4.

(** An oracle that draws the third live slot first, then the first. *)
Definition rng_last_first : nat → nat := λ i, if (i =? 0)%nat then 2%nat else 0%nat.

(** Alice's questions are drawn as 3, 1; she answers both and submits. *)
Definition session_shuffled : Session :=
  (load_exam_questions (H := ascii_ops) rng_last_first 1 "alice" db1
     session_started).2.

Definition submitted_both : gmap string string :=
  {[ "1" := " b "; "3" := "y" ]}.

Definition db_shuffled : Db :=
  (submit_exam (H := ascii_ops) "alice" 1 submitted_both db1
     session_shuffled).1.2.

(** The session when bob, in the same browser session, starts exam 1
    after alice has loaded her questions, and loads his own. *)
Definition session_bob_loaded : Session :=
  (load_exam_questions (H := ascii_ops) rng_second 1 "bob" db1
     (start_exam (H := ascii_ops) "bob" (Some 1) (Some "exam")
        (120 # 1)%Q (120 # 1)%Q db1 session_loaded).2).2.

(** An exam whose target exceeds its bank, and an exam without
    questions. *)
Definition exam_all : Exam.t :=
  Exam.mk 1 "Whole bank" 30 5 pass_rate_60 "2024-04-01" "exam".

Definition db_whole : Db :=
  mkDb [exam_all] [question1; question2; question3] [] 4.

(** An uploaded file: header, a question with a blank choice cell, an
    empty line, a blank row and a short question. *)
Definition csv_sample : csv_file :=
  mkCsv true
    [ ["question"; "choice"; "choice"; "choice"; "answer"];
      ["Q4"; " yes "; ""; "no"; "yes"];
      [];
      [""; " "];
      ["Q5"; "a"] ].

(** * Properties *)

(** ** [random.sample] *)

Section SampleFacts.
Context {A : Type}.
Implicit Types pool population : list A.

(** One iteration moves the drawn element out of the live prefix. *)
Lemma sample_step pool (m j : nat) x y :
  (j < m)%nat → (m ≤ length pool)%nat →
  pool !! j = Some x → pool !! (m - 1)%nat = Some y →
  x :: take (m - 1) (<[j := y]> pool) ≡ₚ take m pool.
Proof.
  intros Hj Hm Hx Hy.
  assert (Hlast : take m pool = take (m - 1) pool ++ [y]).
  { replace m with (S (m - 1)) at 1 by lia. by apply take_S_r. }
  rewrite Hlast.
  destruct (decide (j = (m - 1)%nat)) as [-> | Hne].
  - rewrite take_insert_ge by lia.
    assert (x = y) by congruence. subst y.
    apply Permutation_cons_append.
  - rewrite take_insert_lt by lia.
    set (l := take (m - 1) pool).
    assert (Hl : l !! j = Some x).
    { unfold l. rewrite lookup_take_lt by lia. done. }
    rewrite <- (take_drop_middle l j x Hl) at 2.
    rewrite insert_take_drop
      by (apply lookup_lt_Some in Hl; lia).
    rewrite <- app_assoc. simpl.
    rewrite <- Permutation_middle.
    apply Permutation_sym.
    rewrite <- Permutation_middle.
    apply perm_skip.
    rewrite (Permutation_app_comm (drop (S j) l) [y]). simpl.
    by rewrite <- Permutation_middle.
Qed.

(** The loop returns [k] elements that, with some remainder, make up
    the live prefix of the pool. *)
Lemma sample_loop_spec rng (k : nat) :
  ∀ pool (m i : nat),
    (k ≤ m)%nat → (m ≤ length pool)%nat →
    length (sample_loop rng pool m i k) = k ∧
    ∃ rest, sample_loop rng pool m i k ++ rest ≡ₚ take m pool.
Proof.
  induction k as [| k IH]; intros pool m i Hk Hm; simpl.
  - split; [done |]. by exists (take m pool).
  - assert (Hj : (rng i mod m < m)%nat) by (apply Nat.mod_upper_bound; lia).
    destruct (lookup_lt_is_Some_2 pool (rng i mod m)%nat) as [x Hx]; [lia |].
    destruct (lookup_lt_is_Some_2 pool (m - 1)%nat) as [y Hy]; [lia |].
    rewrite Hx, Hy.
    destruct (IH (<[(rng i mod m)%nat := y]> pool) (m - 1)%nat (S i))
      as [Hlen [rest Hrest]]; [lia | rewrite length_insert; lia |].
    split; [simpl; by rewrite Hlen |].
    exists rest. simpl. rewrite Hrest.
    by apply sample_step.
Qed.

Lemma random_sample_spec rng population (k : Z) :
  0 ≤ k ≤ Z.of_nat (length population) →
  ∃ selected rest,
    random_sample rng population k = Returned selected ∧
    length selected = Z.to_nat k ∧
    selected ++ rest ≡ₚ population.
Proof.
  intros Hk. unfold random_sample.
  rewrite decide_True by done.
  destruct (sample_loop_spec rng (Z.to_nat k) population
              (length population) 0) as [Hlen [rest Hrest]]; [lia | lia |].
  rewrite firstn_all in Hrest. eauto.
Qed.

Lemma random_sample_negative rng population (k : Z) :
  k < 0 → random_sample rng population k = Raised "ValueError".
Proof.
  intros Hk. unfold random_sample. rewrite decide_False; [done | lia].
Qed.
End SampleFacts.

(** ** Question selection *)

Section Selection.
Context `{StrOps}.

Lemma elem_of_questions_of_exam db exam_id q :
  q ∈ questions_of_exam db exam_id ↔
  Question.exam_id q = exam_id ∧ q ∈ questions db.
Proof. unfold questions_of_exam. by rewrite list_elem_of_filter. Qed.

Lemma questions_of_exam_NoDup db exam_id :
  NoDup (Question.id <$> questions db) →
  NoDup (Question.id <$> questions_of_exam db exam_id).
Proof.
  unfold questions_of_exam.
  induction (questions db) as [| q l IH]; simpl; intros Hnd; [constructor |].
  apply NoDup_cons in Hnd as [Hq Hl].
  rewrite filter_cons. destruct (decide _); [| by apply IH].
  simpl. apply NoDup_cons. split; [| by apply IH].
  intros Hin. apply Hq.
  apply list_elem_of_fmap in Hin as (q' & -> & Hq').
  apply list_elem_of_filter in Hq' as [_ Hq'].
  apply list_elem_of_fmap. eauto.
Qed.

(** C6: for an exam with a non-negative target [T] and [N] stored
    questions, [load_exam_questions] returns and stores exactly
    [min(T, N)] questions, with pairwise distinct ids, each a stored
    question of that exam. *)
Theorem load_exam_questions_selection rng db session exam_id student exam :
  get_exam db exam_id = Some exam →
  0 ≤ Exam.total_questions exam →
  NoDup (Question.id <$> questions db) →
  ∃ selected session',
    load_exam_questions rng exam_id student db session
    = (Returned (mkLoad (view_of <$> selected) (length selected)
                   (Some (session_get_mode session'
                            (key_mode exam_id student)))),
       session') ∧
    session' !! key_question_ids exam_id
    = Some (V_ids (Question.id <$> selected)) ∧
    Z.of_nat (length selected)
    = Z.min (Exam.total_questions exam)
            (Z.of_nat (length (questions_of_exam db exam_id))) ∧
    NoDup (Question.id <$> selected) ∧
    ∀ q, q ∈ selected → q ∈ questions db ∧ Question.exam_id q = exam_id.
Proof.
  intros Hexam HT Hkeys.
  set (qs := questions_of_exam db exam_id).
  destruct (random_sample_spec rng qs
              (Z.min (Exam.total_questions exam) (Z.of_nat (length qs))))
    as (selected & rest & Hsample & Hlen & Hperm); [lia |].
  exists selected,
    (<[key_question_ids exam_id := V_ids (Question.id <$> selected)]>
       session).
  unfold load_exam_questions. rewrite Hexam. fold qs. rewrite Hsample.
  split; [done |].
  split; [apply lookup_insert_eq |].
  split; [lia |].
  split.
  - pose proof (questions_of_exam_NoDup db exam_id Hkeys) as Hnd.
    fold qs in Hnd. rewrite <- Hperm, fmap_app in Hnd.
    by apply NoDup_app in Hnd as [Hnd _].
  - intros q Hq.
    assert (Hin : q ∈ qs).
    { rewrite <- Hperm. apply elem_of_app. by left. }
    apply elem_of_questions_of_exam in Hin as [? ?]. done.
Qed.

(** A negative target makes [random.sample] raise; nothing is stored. *)
Lemma load_exam_questions_negative_target rng db session exam_id student exam :
  get_exam db exam_id = Some exam →
  Exam.total_questions exam < 0 →
  load_exam_questions rng exam_id student db session
  = (Raised "ValueError", session).
Proof.
  intros Hexam HT. unfold load_exam_questions. rewrite Hexam.
  rewrite random_sample_negative; [done | lia].
Qed.
End Selection.

Lemma load_exam_questions_selection_witness :
  ∃ selected session',
    load_exam_questions (H := ascii_ops) rng_first 1 "alice" db1 ∅
    = (Returned (mkLoad (view_of (H := ascii_ops) <$> selected)
                   (length selected)
                   (Some (session_get_mode session' (key_mode 1 "alice")))),
       session') ∧
    session' !! key_question_ids 1 = Some (V_ids (Question.id <$> selected)) ∧
    Z.of_nat (length selected)
    = Z.min (Exam.total_questions exam1)
            (Z.of_nat (length (questions_of_exam db1 1))) ∧
    NoDup (Question.id <$> selected) ∧
    ∀ q, q ∈ selected → q ∈ questions db1 ∧ Question.exam_id q = 1.
Proof.
  apply (load_exam_questions_selection (H := ascii_ops)
           rng_first db1 ∅ 1 "alice" exam1).
  - reflexivity.
  - vm_compute. discriminate.
  - apply (bool_decide_unpack _). vm_compute. exact I.
Defined.

(** ** Session keys and the timer *)

Lemma string_app_inv_head (a b c : string) : a +:+ b = a +:+ c → b = c.
Proof.
  induction a as [| ch a IH]; simpl; [done |].
  intros Heq. injection Heq as Heq. by apply IH.
Qed.

Lemma key_mode_ne_start_time exam_id student_name :
  key_mode exam_id student_name ≠ key_start_time exam_id student_name.
Proof.
  unfold key_mode, key_start_time. intros Heq.
  apply string_app_inv_head, string_app_inv_head in Heq.
  discriminate Heq.
Qed.

(** Truncation towards zero is monotone. *)
Lemma py_int_mono (x y : Q) : (x <= y)%Q → py_int x ≤ py_int y.
Proof.
  unfold Qle, py_int. destruct x as [nx dx], y as [ny dy]. simpl.
  intros Hle.
  rewrite <- (Z.quot_mul_cancel_r nx (Z.pos dx) (Z.pos dy)) by lia.
  rewrite <- (Z.quot_mul_cancel_r ny (Z.pos dy) (Z.pos dx)) by lia.
  rewrite (Z.mul_comm (Z.pos dy) (Z.pos dx)).
  apply Z.quot_le_mono; lia.
Qed.

Lemma elapsed_mono (start_time now now' : Q) :
  (now <= now')%Q →
  py_int (now - start_time)%Q ≤ py_int (now' - start_time)%Q.
Proof.
  intros Hle. apply py_int_mono. unfold Qminus.
  apply Qplus_le_compat; [done | apply Qle_refl].
Qed.

Section Start.
Context `{StrOps}.

Lemma remaining_seconds_exam duration start_time now :
  remaining_seconds duration "exam" start_time now
  = Some (Z.max 0 (duration * 60 - py_int (now - start_time)%Q)).
Proof.
  unfold remaining_seconds. rewrite decide_True by done.
  f_equal. destruct (Z.ltb_spec (duration * 60 - py_int (now - start_time)%Q) 0);
    lia.
Qed.

(** The successful path of [start_exam], whether the start time is
    stamped by this call or was stored by an earlier one. *)
Lemma start_exam_started name exam_id exam mode now_stamp now_timer
    db (session : Session) start_time :
  str_strip name ≠ "" →
  get_exam db exam_id = Some exam →
  (session !! key_start_time exam_id (str_strip name) = None
     ∧ start_time = now_stamp)
  ∨ session !! key_start_time exam_id (str_strip name)
    = Some (V_float start_time) →
  start_exam name (Some exam_id) (Some mode) now_stamp now_timer db session
  = (Returned
       (Start_render (str_strip name) exam_id
          (remaining_seconds (Exam.duration exam) mode start_time now_timer)
          mode),
     <[key_start_time exam_id (str_strip name) := V_float start_time]>
       (<[key_mode exam_id (str_strip name) := V_str mode]> session)).
Proof.
  intros Hname Hexam Hstart. unfold start_exam. simpl.
  rewrite decide_False by done. rewrite Hexam.
  rewrite lookup_insert_ne by apply key_mode_ne_start_time.
  destruct Hstart as [[Hnone ->] | Hsome].
  - rewrite Hnone. by rewrite lookup_insert_eq.
  - rewrite Hsome.
    rewrite lookup_insert_ne by apply key_mode_ne_start_time.
    rewrite Hsome. f_equal.
    symmetry. apply insert_id.
    rewrite lookup_insert_ne by apply key_mode_ne_start_time. done.
Qed.

(** C3: for an attempt whose start time is [start_time] (stored by an
    earlier call, or stamped by this one), the timer shown in exam
    mode is [duration * 60 - int(now - start_time)] floored at 0, it
    is never negative and never increases as [now] grows; in study
    mode it is null for every [now]. *)
Theorem start_exam_timer name exam_id exam now_stamp db (session : Session)
    start_time :
  str_strip name ≠ "" →
  get_exam db exam_id = Some exam →
  (session !! key_start_time exam_id (str_strip name) = None
     ∧ start_time = now_stamp)
  ∨ session !! key_start_time exam_id (str_strip name)
    = Some (V_float start_time) →
  (∀ now, ∃ r,
      (start_exam name (Some exam_id) (Some "exam") now_stamp now
         db session).1
      = Returned (Start_render (str_strip name) exam_id (Some r) "exam")
      ∧ r = Z.max 0 (Exam.duration exam * 60
                     - py_int (now - start_time)%Q)
      ∧ 0 ≤ r) ∧
  (∀ now now' r r',
      (now <= now')%Q →
      (start_exam name (Some exam_id) (Some "exam") now_stamp now
         db session).1
      = Returned (Start_render (str_strip name) exam_id (Some r) "exam") →
      (start_exam name (Some exam_id) (Some "exam") now_stamp now'
         db session).1
      = Returned (Start_render (str_strip name) exam_id (Some r') "exam") →
      r' ≤ r) ∧
  (∀ now,
      (start_exam name (Some exam_id) (Some "study") now_stamp now
         db session).1
      = Returned (Start_render (str_strip name) exam_id None "study")).
Proof.
  intros Hname Hexam Hstart. repeat split.
  - intros now. eexists.
    rewrite (start_exam_started _ _ _ _ _ _ _ _ _ Hname Hexam Hstart).
    simpl. rewrite remaining_seconds_exam. split; [done |].
    split; [done | lia].
  - intros now now' r r' Hle.
    rewrite !(start_exam_started _ _ _ _ _ _ _ _ _ Hname Hexam Hstart).
    simpl. rewrite !remaining_seconds_exam.
    intros [= <-] [= <-].
    pose proof (elapsed_mono start_time now now' Hle). lia.
  - intros now.
    by rewrite (start_exam_started _ _ _ _ _ _ _ _ _ Hname Hexam Hstart).
Qed.

(** C4, as the code has it: on a repeat [start] the stored start time
    keeps its value, the stored mode becomes the mode this call
    requests, and no other session entry changes. *)
Theorem start_exam_repeat name exam_id exam mode now_stamp now_timer
    db (session : Session) start_time :
  str_strip name ≠ "" →
  get_exam db exam_id = Some exam →
  session !! key_start_time exam_id (str_strip name)
  = Some (V_float start_time) →
  ∃ remaining session',
    start_exam name (Some exam_id) (Some mode) now_stamp now_timer
      db session
    = (Returned (Start_render (str_strip name) exam_id remaining mode),
       session') ∧
    session' !! key_start_time exam_id (str_strip name)
    = Some (V_float start_time) ∧
    session' !! key_mode exam_id (str_strip name) = Some (V_str mode) ∧
    ∀ k, k ≠ key_mode exam_id (str_strip name) →
         session' !! k = session !! k.
Proof.
  intros Hname Hexam Hstart.
  do 2 eexists.
  rewrite (start_exam_started _ _ _ _ _ _ _ _ start_time Hname Hexam)
    by (by right).
  split; [done |].
  split; [apply lookup_insert_eq |].
  split.
  - rewrite lookup_insert_ne
      by (apply not_eq_sym, key_mode_ne_start_time).
    apply lookup_insert_eq.
  - intros k Hk.
    destruct (decide (k = key_start_time exam_id (str_strip name)))
      as [-> | Hne].
    + by rewrite lookup_insert_eq.
    + rewrite !lookup_insert_ne by done. done.
Qed.
End Start.

Lemma start_exam_timer_witness :
  (∀ now, ∃ r,
      (start_exam (H := ascii_ops) "alice" (Some 1) (Some "exam")
         (100 # 1)%Q now db1 ∅).1
      = Returned (Start_render "alice" 1 (Some r) "exam")
      ∧ r = Z.max 0 (30 * 60 - py_int (now - (100 # 1))%Q)
      ∧ 0 ≤ r) ∧
  (∀ now now' r r',
      (now <= now')%Q →
      (start_exam (H := ascii_ops) "alice" (Some 1) (Some "exam")
         (100 # 1)%Q now db1 ∅).1
      = Returned (Start_render "alice" 1 (Some r) "exam") →
      (start_exam (H := ascii_ops) "alice" (Some 1) (Some "exam")
         (100 # 1)%Q now' db1 ∅).1
      = Returned (Start_render "alice" 1 (Some r') "exam") →
      r' ≤ r) ∧
  (∀ now,
      (start_exam (H := ascii_ops) "alice" (Some 1) (Some "study")
         (100 # 1)%Q now db1 ∅).1
      = Returned (Start_render "alice" 1 None "study")).
Proof.
  apply (start_exam_timer (H := ascii_ops) "alice" 1 exam1 (100 # 1)%Q
           db1 ∅ (100 # 1)%Q).
  - vm_compute. discriminate.
  - reflexivity.
  - left. split; reflexivity.
Defined.

Lemma start_exam_repeat_witness :
  ∃ remaining session',
    start_exam (H := ascii_ops) "alice" (Some 1) (Some "study")
      (160 # 1)%Q (160 # 1)%Q db1 session_started
    = (Returned (Start_render "alice" 1 remaining "study"), session') ∧
    session' !! key_start_time 1 "alice" = Some (V_float (100 # 1)%Q) ∧
    session' !! key_mode 1 "alice" = Some (V_str "study") ∧
    ∀ k, k ≠ key_mode 1 "alice" → session' !! k = session_started !! k.
Proof.
  apply (start_exam_repeat (H := ascii_ops) "alice" 1 exam1 "study"
           (160 # 1)%Q (160 # 1)%Q db1 session_started (100 # 1)%Q).
  - vm_compute. discriminate.
  - reflexivity.
  - vm_compute. reflexivity.
Defined.

(** C4 as claimed fails: alice starts exam 1 in exam mode, then starts
    it again asking for study mode; the stored mode is no longer the one
    recorded by the first call. *)
Lemma start_exam_mode_kept_counterexample :
  let first := session_started in
  let second :=
    (start_exam (H := ascii_ops) "alice" (Some 1) (Some "study")
       (160 # 1)%Q (160 # 1)%Q db1 first).2 in
  first !! key_mode 1 "alice" = Some (V_str "exam") ∧
  second !! key_start_time 1 "alice" = first !! key_start_time 1 "alice" ∧
  second !! key_mode 1 "alice" = Some (V_str "study") ∧
  second !! key_mode 1 "alice" ≠ first !! key_mode 1 "alice".
Proof.
  vm_compute. repeat split; try reflexivity. discriminate.
Qed.

(** ** Submission *)

Section FilterFacts.
Context {A B : Type} (P : A → Prop) `{!∀ x, Decision (P x)}.

Lemma filter_complement_nil (l : list A) :
  filter P (filter (λ x, ¬ P x) l) = [].
Proof.
  induction l as [| x l IH]; [done |].
  rewrite (filter_cons (λ x, ¬ P x)).
  destruct (decide (¬ P x)) as [Hx | Hx]; [| done].
  by rewrite filter_cons_False.
Qed.

Lemma filter_fmap_all (f : B → A) (l : list B) :
  (∀ x, P (f x)) → filter P (f <$> l) = f <$> l.
Proof.
  intros Hall. induction l as [| x l IH]; [done |].
  rewrite fmap_cons, filter_cons_True by done. by rewrite IH.
Qed.

Lemma filter_fmap_none (f : B → A) (l : list B) :
  (∀ x, ¬ P (f x)) → filter P (f <$> l) = [].
Proof.
  intros Hnone. induction l as [| x l IH]; [done |].
  rewrite fmap_cons, filter_cons_False by done. done.
Qed.
End FilterFacts.

Lemma key_start_time_ne_flashes exam_id student_name :
  key_start_time exam_id student_name ≠ "_flashes".
Proof. unfold key_start_time. simpl. discriminate. Qed.

Lemma key_mode_ne_flashes exam_id student_name :
  key_mode exam_id student_name ≠ "_flashes".
Proof. unfold key_mode. simpl. discriminate. Qed.

Lemma key_question_ids_ne_flashes exam_id :
  key_question_ids exam_id ≠ "_flashes".
Proof. unfold key_question_ids. simpl. discriminate. Qed.

Lemma flash_lookup_ne message (session : Session) k :
  k ≠ "_flashes" → flash message session !! k = session !! k.
Proof. intros Hk. unfold flash. by rewrite lookup_insert_ne. Qed.

Section Submit.
Context `{StrOps}.

Lemma cleared_lookup exam_id student_name (session : Session) k :
  cleared exam_id student_name session !! k
  = if decide (k = key_mode exam_id student_name
               ∨ k = key_question_ids exam_id
               ∨ k = key_start_time exam_id student_name)
    then None else session !! k.
Proof.
  unfold cleared. rewrite !lookup_delete.
  repeat case_decide; subst; try done; intuition congruence.
Qed.

(** A submission that finds no stored question ids is rejected. *)
Lemma submit_exam_rejected name exam_id submitted db (session : Session) :
  session_get_ids session (key_question_ids exam_id) = [] →
  submit_exam name exam_id submitted db session
  = (Status_error, db, flash "試験データが不正です" session).
Proof. intros Hids. unfold submit_exam. by rewrite Hids. Qed.

(** The accepted path of [submit_exam] for a mode other than study. *)
Lemma submit_exam_accepted name exam_id submitted db (session : Session) ids :
  session !! key_question_ids exam_id = Some (V_ids ids) →
  ids ≠ [] →
  session_get_mode session (key_mode exam_id (str_strip name)) ≠ "study" →
  submit_exam name exam_id submitted db session
  = (Status_ok,
     mkDb (exams db) (questions db)
       (filter (λ a, ¬ answer_of (str_strip name) exam_id a) (answers db)
        ++ (new_answer (str_strip name) exam_id submitted <$> ids))
       (question_seq db),
     cleared exam_id (str_strip name) session).
Proof.
  intros Hids Hne Hmode.
  unfold submit_exam, session_get_ids. rewrite Hids.
  destruct ids as [| qid ids']; [done |].
  by rewrite decide_True.
Qed.

(** After the delete and the inserts, the rows of (student, exam) are
    the inserted ones. *)
Lemma replaced_rows student exam_id submitted (rows : list Answer.t) ids :
  filter (answer_of student exam_id)
    (filter (λ a, ¬ answer_of student exam_id a) rows
     ++ (new_answer student exam_id submitted <$> ids))
  = new_answer student exam_id submitted <$> ids.
Proof.
  rewrite filter_app, filter_complement_nil. simpl.
  apply filter_fmap_all. intros qid. by split.
Qed.

(** C1: with a stored question-id sequence and a stored mode other
    than study, [submit_exam] drops every earlier answer of
    (student, exam) and adds one row per stored id, in order, holding
    the submitted string or the sentinel; the rows of that pair are then
    exactly those, whatever was stored before, the rows of every other
    pair are untouched, and a further submission on the cleared session
    is rejected and leaves the table as it is. *)
Theorem submit_exam_replaces name exam_id submitted db (session : Session)
    ids :
  session !! key_question_ids exam_id = Some (V_ids ids) →
  ids ≠ [] →
  session_get_mode session (key_mode exam_id (str_strip name)) ≠ "study" →
  ∃ db',
    submit_exam name exam_id submitted db session
    = (Status_ok, db', cleared exam_id (str_strip name) session) ∧
    answers db'
    = filter (λ a, ¬ answer_of (str_strip name) exam_id a) (answers db)
      ++ ((λ qid, Answer.mk (str_strip name) exam_id qid
                    (default unanswered (submitted !! str_of_int qid)))
            <$> ids) ∧
    answers_of db' (str_strip name) exam_id
    = (λ qid, Answer.mk (str_strip name) exam_id qid
                (default unanswered (submitted !! str_of_int qid)))
        <$> ids ∧
    length (answers_of db' (str_strip name) exam_id) = length ids ∧
    (∀ student exam,
        ¬ (student = str_strip name ∧ exam = exam_id) →
        answers_of db' student exam = answers_of db student exam) ∧
    (∀ submitted',
        submit_exam name exam_id submitted' db'
          (cleared exam_id (str_strip name) session)
        = (Status_error, db',
           flash "試験データが不正です"
             (cleared exam_id (str_strip name) session))).
Proof.
  intros Hids Hne Hmode.
  eexists. split; [by apply submit_exam_accepted |].
  split; [done |].
  pose proof (replaced_rows (str_strip name) exam_id submitted
                (answers db) ids) as Hrows.
  split; [exact Hrows |].
  split; [unfold answers_of; simpl; by rewrite Hrows, length_fmap |].
  split.
  - intros student exam Hother. unfold answers_of. simpl.
    rewrite filter_app.
    rewrite (filter_fmap_none (answer_of student exam)).
    + rewrite app_nil_r. apply list_filter_filter_l.
      intros a [? ?] [? ?]. apply Hother. split; congruence.
    + intros qid [? ?]. apply Hother. by split.
  - intros submitted'. apply submit_exam_rejected.
    unfold session_get_ids. rewrite cleared_lookup.
    rewrite decide_True by (right; by left). done.
Qed.

(** What [submit_exam] stores from a sequence of distinct ids of stored
    questions is one answer per question, each referring to a stored
    question: the conditions under which [result] is evaluated below. *)
Lemma submitted_answers_well_formed name exam_id submitted db
    (session : Session) ids :
  session !! key_question_ids exam_id = Some (V_ids ids) →
  ids ≠ [] →
  session_get_mode session (key_mode exam_id (str_strip name)) ≠ "study" →
  NoDup ids →
  (∀ qid, qid ∈ ids → ∃ q, q ∈ questions db ∧ Question.id q = qid) →
  let db' := (submit_exam name exam_id submitted db session).1.2 in
  answers_of db' (str_strip name) exam_id ≠ [] ∧
  questions db' = questions db ∧
  NoDup (Answer.question_id <$> answers_of db' (str_strip name) exam_id) ∧
  ∀ a, a ∈ answers_of db' (str_strip name) exam_id →
       ∃ q, q ∈ questions db' ∧ Question.id q = Answer.question_id a.
Proof.
  intros Hids Hne Hmode Hnd Hrefs.
  rewrite (submit_exam_accepted _ _ _ _ _ _ Hids Hne Hmode). simpl.
  unfold answers_of. simpl. rewrite replaced_rows.
  split; [by destruct ids |].
  split; [done |].
  rewrite <- list_fmap_compose.
  split.
  - assert (Hsame :
      Answer.question_id ∘ new_answer (str_strip name) exam_id submitted
        <$> ids = ids)
      by (etrans; [| apply list_fmap_id]; done).
    by rewrite Hsame.
  - intros a Ha. apply list_elem_of_fmap in Ha as (qid & -> & Hqid).
    by apply Hrefs.
Qed.

(** C7: with a stored question-id sequence and the stored mode study,
    [submit_exam] returns ok, leaves the store (hence every Answer row)
    as it was, and removes the start time, question ids and mode entries
    of the attempt, touching no other session entry. *)
Theorem submit_exam_study name exam_id submitted db (session : Session) ids :
  session !! key_question_ids exam_id = Some (V_ids ids) →
  ids ≠ [] →
  session !! key_mode exam_id (str_strip name) = Some (V_str "study") →
  ∃ session',
    submit_exam name exam_id submitted db session
    = (Status_ok, db, session') ∧
    session' !! key_start_time exam_id (str_strip name) = None ∧
    session' !! key_question_ids exam_id = None ∧
    session' !! key_mode exam_id (str_strip name) = None ∧
    ∀ k, k ≠ key_start_time exam_id (str_strip name) →
         k ≠ key_question_ids exam_id →
         k ≠ key_mode exam_id (str_strip name) →
         session' !! k = session !! k.
Proof.
  intros Hids Hne Hmode.
  exists (cleared exam_id (str_strip name) session). split.
  { unfold submit_exam, session_get_ids, session_get_mode.
    rewrite Hids, Hmode.
    destruct ids as [| qid ids']; [done |].
    rewrite decide_False by (intros Hs; by apply Hs). reflexivity. }
  rewrite !cleared_lookup.
  repeat split.
  - rewrite decide_True by auto. done.
  - rewrite decide_True by auto. done.
  - rewrite decide_True by auto. done.
  - intros k ? ? ?. rewrite cleared_lookup.
    rewrite decide_False by intuition. done.
Qed.

(** C10: when the stored question-id sequence is absent or empty,
    [submit_exam] returns the error status, the store is unchanged, and
    every session entry other than the flash queue (so the start time,
    mode and question-id entries of the attempt) is as before. *)
Theorem submit_exam_no_ids name exam_id submitted db (session : Session) :
  session !! key_question_ids exam_id = None
  ∨ session !! key_question_ids exam_id = Some (V_ids []) →
  ∃ session',
    submit_exam name exam_id submitted db session
    = (Status_error, db, session') ∧
    session' !! key_start_time exam_id (str_strip name)
    = session !! key_start_time exam_id (str_strip name) ∧
    session' !! key_mode exam_id (str_strip name)
    = session !! key_mode exam_id (str_strip name) ∧
    session' !! key_question_ids exam_id
    = session !! key_question_ids exam_id ∧
    ∀ k, k ≠ "_flashes" → session' !! k = session !! k.
Proof.
  intros Hids. eexists. split.
  { apply submit_exam_rejected. unfold session_get_ids.
    by destruct Hids as [-> | ->]. }
  repeat split.
  - apply flash_lookup_ne, key_start_time_ne_flashes.
  - apply flash_lookup_ne, key_mode_ne_flashes.
  - apply flash_lookup_ne, key_question_ids_ne_flashes.
  - intros k Hk. by apply flash_lookup_ne.
Qed.
End Submit.

Lemma submit_exam_replaces_witness :
  ∃ db',
    submit_exam (H := ascii_ops) "alice" 1 submitted1 db_answered
      session_loaded
    = (Status_ok, db', cleared 1 "alice" session_loaded) ∧
    answers db'
    = filter (λ a, ¬ answer_of "alice" 1 a) (answers db_answered)
      ++ ((λ qid, Answer.mk "alice" 1 qid
                    (default unanswered (submitted1 !! str_of_int qid)))
            <$> [1; 3]) ∧
    answers_of db' "alice" 1
    = (λ qid, Answer.mk "alice" 1 qid
                (default unanswered (submitted1 !! str_of_int qid)))
        <$> [1; 3] ∧
    length (answers_of db' "alice" 1) = length [1; 3] ∧
    (∀ student exam,
        ¬ (student = "alice" ∧ exam = 1) →
        answers_of db' student exam = answers_of db_answered student exam) ∧
    (∀ submitted',
        submit_exam (H := ascii_ops) "alice" 1 submitted' db'
          (cleared 1 "alice" session_loaded)
        = (Status_error, db',
           flash "試験データが不正です" (cleared 1 "alice" session_loaded))).
Proof.
  apply (submit_exam_replaces (H := ascii_ops) "alice" 1 submitted1
           db_answered session_loaded [1; 3]).
  - vm_compute. reflexivity.
  - discriminate.
  - vm_compute. discriminate.
Defined.

Lemma submit_exam_study_witness :
  ∃ session',
    submit_exam (H := ascii_ops) "alice" 1 submitted1 db_answered
      session_study
    = (Status_ok, db_answered, session') ∧
    session' !! key_start_time 1 "alice" = None ∧
    session' !! key_question_ids 1 = None ∧
    session' !! key_mode 1 "alice" = None ∧
    ∀ k, k ≠ key_start_time 1 "alice" →
         k ≠ key_question_ids 1 →
         k ≠ key_mode 1 "alice" →
         session' !! k = session_study !! k.
Proof.
  apply (submit_exam_study (H := ascii_ops) "alice" 1 submitted1
           db_answered session_study [1; 3]).
  - vm_compute. reflexivity.
  - discriminate.
  - vm_compute. reflexivity.
Defined.

Lemma submit_exam_no_ids_witness :
  ∃ session',
    submit_exam (H := ascii_ops) "alice" 1 submitted1 db_answered
      session_started
    = (Status_error, db_answered, session') ∧
    session' !! key_start_time 1 "alice"
    = session_started !! key_start_time 1 "alice" ∧
    session' !! key_mode 1 "alice" = session_started !! key_mode 1 "alice" ∧
    session' !! key_question_ids 1 = session_started !! key_question_ids 1 ∧
    ∀ k, k ≠ "_flashes" → session' !! k = session_started !! k.
Proof.
  apply (submit_exam_no_ids (H := ascii_ops) "alice" 1 submitted1
           db_answered session_started).
  left. vm_compute. reflexivity.
Defined.

(** ** Result evaluation *)

Section ListFacts.
Context {A B : Type}.

(** Filtering keeps a key column free of duplicates. *)
Lemma NoDup_fmap_filter (f : A → B) (P : A → Prop) `{!∀ x, Decision (P x)}
    (l : list A) :
  NoDup (f <$> l) → NoDup (f <$> filter P l).
Proof.
  induction l as [| x l IH]; simpl; intros Hnd; [constructor |].
  apply NoDup_cons in Hnd as [Hx Hl].
  rewrite filter_cons. destruct (decide (P x)); [| by apply IH].
  rewrite fmap_cons. apply NoDup_cons. split; [| by apply IH].
  intros Hin. apply Hx.
  apply list_elem_of_fmap in Hin as (x' & -> & Hx').
  apply list_elem_of_filter in Hx' as [_ Hx'].
  by apply list_elem_of_fmap_2.
Qed.

Lemma fmap_ext_elem_of (f g : A → B) (l : list A) :
  (∀ x, x ∈ l → f x = g x) → f <$> l = g <$> l.
Proof.
  induction l as [| x l IH]; intros Hfg; [done |].
  rewrite !fmap_cons, Hfg, IH; [done | |].
  - intros y Hy. apply Hfg. by right.
  - by left.
Qed.

End ListFacts.

Lemma get_question_elem_of db (q : Question.t) :
  NoDup (Question.id <$> questions db) →
  q ∈ questions db →
  get_question db (Question.id q) = Some q.
Proof.
  unfold get_question.
  induction (questions db) as [| q' l IH]; intros Hnd Hq.
  - by apply elem_of_nil in Hq.
  - rewrite fmap_cons in Hnd. apply NoDup_cons in Hnd as [Hq' Hl].
    simpl. case_bool_decide as Hid.
    + apply elem_of_cons in Hq as [-> | Hq]; [done |].
      exfalso. apply Hq'. rewrite Hid. by apply list_elem_of_fmap_2.
    + apply elem_of_cons in Hq as [-> | Hq]; [done | by apply IH].
Qed.

Section Result.
Context `{StrOps}.

(** The dict comprehension maps the question of each stored answer to
    that answer's value when no two answers share a question. *)
Lemma answer_map_of_lookup (l : list Answer.t) (a : Answer.t) :
  NoDup (Answer.question_id <$> l) →
  a ∈ l →
  answer_map_of l !! Answer.question_id a = Some (Answer.selected_answer a).
Proof.
  unfold answer_map_of.
  induction l as [| b l IH] using rev_ind; intros Hnd Ha.
  - by apply elem_of_nil in Ha.
  - rewrite foldl_app. simpl.
    rewrite fmap_app in Hnd. apply NoDup_app in Hnd as (Hl & Hdisj & _).
    apply elem_of_app in Ha as [Ha | Ha].
    + rewrite lookup_insert_ne; [by apply IH |].
      intros Heq. apply (Hdisj (Answer.question_id a)).
      * by apply list_elem_of_fmap_2.
      * rewrite <- Heq. simpl. by left.
    + apply list_elem_of_singleton in Ha as ->. apply lookup_insert_eq.
Qed.

(** The scoring loop counts the lines flagged correct and appends one
    line per question, in the order of the questions. *)
Lemma score_loop answer_map (qs : list Question.t) :
  ∀ correct results,
    foldl (score_step answer_map) (correct, results) qs
    = (correct
       + Z.of_nat (length (filter (λ r, res_is_correct r = true)
                             (question_entry answer_map <$> qs))),
       results ++ (question_entry answer_map <$> qs)).
Proof.
  induction qs as [| q qs IH]; intros correct results.
  - simpl. f_equal; [lia | by rewrite app_nil_r].
  - rewrite fmap_cons, filter_cons. cbn [foldl].
    change (score_step answer_map (correct, results) q)
      with (if res_is_correct (question_entry answer_map q)
            then correct + 1 else correct,
            results ++ [question_entry answer_map q]).
    rewrite IH, <- app_assoc. cbn [app].
    destruct (res_is_correct (question_entry answer_map q)).
    + rewrite decide_True by done. cbn [length]. f_equal. lia.
    + rewrite decide_False by done. done.
Qed.

(** [result] when answers are stored and the exam exists. *)
Lemma result_rendered name exam_id exam db (session : Session) :
  answers_of db (str_strip name) exam_id ≠ [] →
  get_exam db exam_id = Some exam →
  let stored := answers_of db (str_strip name) exam_id in
  let selected :=
    filter (λ q, Question.id q ∈ Answer.question_id <$> stored)
           (questions db) in
  let lines := question_entry (answer_map_of stored) <$> selected in
  let score :=
    Z.of_nat (length (filter (λ r, res_is_correct r = true) lines)) in
  result name exam_id db session
  = (Returned
       (Result_render (str_strip name) score (Z.of_nat (length selected))
          lines
          (if is_pass score (Z.of_nat (length selected)) (Exam.pass_rate exam)
           then "合格" else "不合格")),
     session).
Proof.
  intros Hstored Hexam. simpl. unfold result.
  destruct (answers_of db (str_strip name) exam_id) as [| a l] eqn:Hl;
    [done |].
  rewrite score_loop. rewrite Hexam. simpl. done.
Qed.

(** With unique question keys, one answer per question and every
    answer referring to a stored question, the lines of the loop are
    the lines of the stored answers, up to order. *)
Lemma breakdown_permutation db (stored : list Answer.t) :
  NoDup (Question.id <$> questions db) →
  NoDup (Answer.question_id <$> stored) →
  (∀ a, a ∈ stored →
        ∃ q, q ∈ questions db ∧ Question.id q = Answer.question_id a) →
  question_entry (answer_map_of stored)
    <$> filter (λ q, Question.id q ∈ Answer.question_id <$> stored)
          (questions db)
  ≡ₚ answer_entry db <$> stored.
Proof.
  intros Hkeys Hone Hrefs.
  set (selected :=
         filter (λ q, Question.id q ∈ Answer.question_id <$> stored)
                (questions db)).
  set (line := λ qid : Z,
         match get_question db qid with
         | Some q => question_entry (answer_map_of stored) q
         | None => mkResult "" "" "" false
         end).
  assert (Hids : Question.id <$> selected ≡ₚ Answer.question_id <$> stored).
  { apply NoDup_Permutation; [by apply NoDup_fmap_filter | done |].
    intros qid. split.
    - intros Hin. apply list_elem_of_fmap in Hin as (q & -> & Hq).
      by apply list_elem_of_filter in Hq as [Hq _].
    - intros Hin. apply list_elem_of_fmap in Hin as (a & -> & Ha).
      destruct (Hrefs a Ha) as (q & Hq & Hid). rewrite <- Hid.
      apply list_elem_of_fmap_2, list_elem_of_filter. split; [| done].
      rewrite Hid. by apply list_elem_of_fmap_2. }
  assert (Hleft : question_entry (answer_map_of stored) <$> selected
                  = line <$> (Question.id <$> selected)).
  { rewrite <- list_fmap_compose. apply fmap_ext_elem_of.
    intros q Hq. apply list_elem_of_filter in Hq as [_ Hq].
    unfold line. simpl. by rewrite get_question_elem_of. }
  assert (Hright : answer_entry db <$> stored
                   = line <$> (Answer.question_id <$> stored)).
  { rewrite <- list_fmap_compose. apply fmap_ext_elem_of.
    intros a Ha. unfold line, answer_entry, marked_correct. simpl.
    destruct (Hrefs a Ha) as (q & Hq & Hid).
    rewrite <- Hid, get_question_elem_of by done.
    unfold question_entry. rewrite Hid.
    rewrite answer_map_of_lookup by done. simpl.
    f_equal. unfold is_correct. apply bool_decide_and. }
  rewrite Hleft, Hright. by apply fmap_Permutation.
Qed.
End Result.

Section ResultClaims.
Context `{StrOps}.



(** C9, as the code has it: the breakdown has one line (question text,
    selected answer, correct answer, flag) per row of the Question
    table whose id occurs among the stored answers, in the order of the
    Question table; under the conditions of C2 these are the lines of
    the stored answers up to order. *)
Theorem result_breakdown name exam_id exam db (session : Session) :
  answers_of db (str_strip name) exam_id ≠ [] →
  get_exam db exam_id = Some exam →
  let stored := answers_of db (str_strip name) exam_id in
  ∃ total max lines status,
    result name exam_id db session
    = (Returned (Result_render (str_strip name) total max lines status),
       session) ∧
    lines
    = question_entry (answer_map_of stored)
        <$> filter (λ q, Question.id q ∈ Answer.question_id <$> stored)
              (questions db) ∧
    (NoDup (Question.id <$> questions db) →
     NoDup (Answer.question_id <$> stored) →
     (∀ a, a ∈ stored →
           ∃ q, q ∈ questions db ∧ Question.id q = Answer.question_id a) →
     lines ≡ₚ answer_entry db <$> stored).
Proof.
  intros Hstored Hexam stored.
  do 4 eexists. split.
  { apply (result_rendered name exam_id exam db session Hstored Hexam). }
  split; [done |].
  apply breakdown_permutation.
Qed.
End ResultClaims.


Lemma result_breakdown_witness :
  let stored := answers_of db_shuffled "alice" 1 in
  ∃ total max lines status,
    result (H := ascii_ops) "alice" 1 db_shuffled ∅
    = (Returned (Result_render "alice" total max lines status), ∅) ∧
    lines
    = question_entry (H := ascii_ops) (answer_map_of stored)
        <$> filter (λ q, Question.id q ∈ Answer.question_id <$> stored)
              (questions db_shuffled) ∧
    (NoDup (Question.id <$> questions db_shuffled) →
     NoDup (Answer.question_id <$> stored) →
     (∀ a, a ∈ stored →
           ∃ q, q ∈ questions db_shuffled
                ∧ Question.id q = Answer.question_id a) →
     lines ≡ₚ answer_entry (H := ascii_ops) db_shuffled <$> stored).
Proof.
  apply (result_breakdown (H := ascii_ops) "alice" 1 exam1 db_shuffled ∅).
  - vm_compute. discriminate.
  - reflexivity.
Defined.

(** C9 as claimed fails: alice's answers were stored in the order of
    her drawn questions, 3 then 1, and the breakdown lists question 1
    before question 3. *)
Lemma result_breakdown_order_counterexample :
  ∃ total max lines status,
    result (H := ascii_ops) "alice" 1 db_shuffled ∅
    = (Returned (Result_render "alice" total max lines status), ∅) ∧
    Answer.question_id <$> answers_of db_shuffled "alice" 1 = [3; 1] ∧
    res_question_text <$> lines = ["Q1"; "Q3"] ∧
    res_question_text
      <$> (answer_entry (H := ascii_ops) db_shuffled
             <$> answers_of db_shuffled "alice" 1) = ["Q3"; "Q1"] ∧
    lines ≠ answer_entry (H := ascii_ops) db_shuffled
              <$> answers_of db_shuffled "alice" 1.
Proof.
  do 4 eexists. split; [vm_compute; reflexivity |].
  vm_compute. repeat split; try reflexivity. discriminate.
Qed.

(** ** Question ids in the session *)

(** C5 fails on the code: the question-id entry is keyed by the exam
    alone.  Alice loads her questions (1, 3); bob, in the same session
    store, loads his (2, 3); alice's start time and mode entries are
    untouched, yet the sequence stored for the exam is now bob's, and
    alice's submission is recorded against questions 2 and 3. *)
Lemma question_ids_shared_between_students :
  session_get_ids session_loaded (key_question_ids 1) = [1; 3] ∧
  session_get_ids session_bob_loaded (key_question_ids 1) = [2; 3] ∧
  session_bob_loaded !! key_start_time 1 "alice"
  = session_loaded !! key_start_time 1 "alice" ∧
  session_bob_loaded !! key_mode 1 "alice"
  = session_loaded !! key_mode 1 "alice" ∧
  Answer.question_id
    <$> answers_of
          (submit_exam (H := ascii_ops) "alice" 1 submitted1 db1
             session_bob_loaded).1.2 "alice" 1
  = [2; 3].
Proof. vm_compute. repeat split; reflexivity. Qed.

(** ** CSV export and re-import *)

Section Csv.
Context `{StrOps}.

Lemma row_skipped_export_row (q : Question.t) :
  str_strip (str_of_int (Question.id q)) ≠ "" →
  row_skipped (export_row q) = false.
Proof.
  intros Hid. unfold row_skipped, export_row.
  rewrite bool_decide_eq_false_2 by (simpl; lia).
  cbn [forallb orb]. by rewrite bool_decide_eq_false_2.
Qed.

(** Importing the exported rows of a bank adds one question per row. *)
Lemma import_exported_rows new_exam_id (bank : list Question.t) :
  (∀ q, q ∈ bank → str_strip (str_of_int (Question.id q)) ≠ "") →
  ∀ db,
    foldl (add_row new_exam_id) db (export_row <$> bank)
    = mkDb (exams db)
        (questions db
         ++ imap (λ i q, question_of_row (question_seq db + Z.of_nat i)
                           new_exam_id (export_row q)) bank)
        (answers db)
        (question_seq db + Z.of_nat (length bank)).
Proof.
  induction bank as [| q bank IH]; intros Hids db.
  - simpl. rewrite app_nil_r, Z.add_0_r. by destruct db.
  - rewrite fmap_cons. cbn [foldl]. unfold add_row at 2.
    rewrite row_skipped_export_row by (apply Hids; by left).
    rewrite IH by (intros q' Hq'; apply Hids; by right).
    cbn [exams questions answers question_seq].
    rewrite imap_cons, <- app_assoc. cbn [app length].
    f_equal; [| lia].
    f_equal. rewrite Z.add_0_r. f_equal.
    apply imap_ext. intros i q' _. simpl. f_equal. lia.
Qed.

(** C8, as the code has it: the export of an existing exam starts with
    a byte-order mark and the four-column header; importing it adds, for
    each question of the bank and in the same order, one question whose
    correct answer is the original one trimmed, whose text is the
    original id in decimal, and whose choices are the original text
    followed by the one cell holding the original choices joined by
    space-pipe-space. *)
Theorem export_then_import exam_id exam new_exam_id db db2 :
  get_exam db exam_id = Some exam →
  (∀ q, q ∈ questions_of_exam db exam_id →
        str_strip (str_of_int (Question.id q)) ≠ "") →
  ∃ file,
    export_exam_csv exam_id db = Some file ∧
    bom file = true ∧
    head (rows file) = Some ["問題ID"; "問題文"; "選択肢"; "正解"] ∧
    load_questions_from_csv_obj file new_exam_id db2
    = mkDb (exams db2)
        (questions db2
         ++ imap (λ i q,
                    Question.mk (question_seq db2 + Z.of_nat i) new_exam_id
                      (str_strip (str_of_int (Question.id q)))
                      (str_join "|"
                         (filter (λ c, c ≠ "")
                            [ str_strip (Question.question_text q);
                              str_strip
                                (str_join " | "
                                   (str_split "|"%char
                                      (Question.choices q))) ]))
                      (str_strip (Question.correct_answer q)))
             (questions_of_exam db exam_id))
        (answers db2)
        (question_seq db2
         + Z.of_nat (length (questions_of_exam db exam_id))).
Proof.
  intros Hexam Hids. eexists.
  split; [unfold export_exam_csv; by rewrite Hexam |].
  split; [done |]. split; [done |].
  unfold load_questions_from_csv_obj. cbn [rows tail].
  by rewrite import_exported_rows.
Qed.
End Csv.

Lemma export_then_import_witness :
  ∃ file,
    export_exam_csv 1 db1 = Some file ∧
    bom file = true ∧
    head (rows file) = Some ["問題ID"; "問題文"; "選択肢"; "正解"] ∧
    load_questions_from_csv_obj (H := ascii_ops) file 2 db1
    = mkDb (exams db1)
        (questions db1
         ++ imap (λ i q,
                    Question.mk (question_seq db1 + Z.of_nat i) 2
                      (ascii_strip (str_of_int (Question.id q)))
                      (str_join "|"
                         (filter (λ c, c ≠ "")
                            [ ascii_strip (Question.question_text q);
                              ascii_strip
                                (str_join " | "
                                   (str_split "|"%char
                                      (Question.choices q))) ]))
                      (ascii_strip (Question.correct_answer q)))
             (questions_of_exam db1 1))
        (answers db1)
        (question_seq db1 + Z.of_nat (length (questions_of_exam db1 1))).
Proof.
  apply (export_then_import (H := ascii_ops) 1 exam1 2 db1 db1).
  - reflexivity.
  - apply Forall_forall.
    change (questions_of_exam db1 1)
      with [question1; question2; question3].
    repeat constructor; vm_compute; discriminate.
Defined.

(** C8 as claimed fails: after exporting the bank of exam 1 and
    importing the file as exam 2, no imported question has the text of
    the original question 1 (its text is now the id, its choices start
    with the old text). *)
Lemma export_import_roundtrip_counterexample :
  ∃ file,
    export_exam_csv 1 db1 = Some file ∧
    questions_of_exam
      (load_questions_from_csv_obj (H := ascii_ops) file 2 db1) 2
    = [ Question.mk 4 2 "1" "Q1|A | B | C" "B";
        Question.mk 5 2 "2" "Q2|yes | no" "yes";
        Question.mk 6 2 "3" "Q3|x | y" "x" ] ∧
    ¬ (∀ q, q ∈ questions_of_exam db1 1 →
         ∃ q', q' ∈ questions_of_exam
                      (load_questions_from_csv_obj (H := ascii_ops)
                         file 2 db1) 2
               ∧ Question.question_text q' = Question.question_text q
               ∧ (∀ c, c ∈ str_split "|"%char (Question.choices q')
                       ↔ c ∈ str_split "|"%char (Question.choices q))
               ∧ Question.correct_answer q' = Question.correct_answer q).
Proof.
  eexists. split; [reflexivity |].
  assert (Himported :
    questions_of_exam
      (load_questions_from_csv_obj (H := ascii_ops)
         (mkCsv true
            (["問題ID"; "問題文"; "選択肢"; "正解"]
             :: (export_row <$> questions_of_exam db1 1))) 2 db1) 2
    = [ Question.mk 4 2 "1" "Q1|A | B | C" "B";
        Question.mk 5 2 "2" "Q2|yes | no" "yes";
        Question.mk 6 2 "3" "Q3|x | y" "x" ])
    by (vm_compute; reflexivity).
  split; [exact Himported |].
  intros Hall.
  destruct (Hall question1) as (q' & Hq' & Htext & _).
  { apply (bool_decide_unpack _). vm_compute. exact I. }
  rewrite Himported in Hq'.
  repeat (apply elem_of_cons in Hq' as [-> | Hq']; [discriminate Htext |]).
  by apply elem_of_nil in Hq'.
Qed.

(** * Further properties of the handlers *)

(** ** Live check *)

Section CheckAnswer.
Context `{StrOps}.

(** X1: for a question of the given exam and a submitted value other
    than the sentinel, the live check gives the verdict the scoring loop
    gives, and reveals the trimmed correct answer exactly when the
    verdict is negative; the sentinel itself is never scored correct. *)
Theorem check_answer_matches_scoring exam_id question_id sel db exam q :
  get_exam db exam_id = Some exam →
  get_question db question_id = Some q →
  Question.exam_id q = Exam.id exam →
  sel ≠ unanswered →
  check_answer exam_id question_id sel db
  = Some (is_correct sel (Question.correct_answer q),
          if is_correct sel (Question.correct_answer q) then None
          else Some (str_strip (Question.correct_answer q)))
  ∧ is_correct unanswered (Question.correct_answer q) = false.
Proof.
  intros Hexam Hq Hown Hsel. split.
  - unfold check_answer. rewrite Hexam, Hq.
    rewrite decide_False by (intros Hne; by apply Hne).
    unfold is_correct. rewrite (bool_decide_eq_true_2 _ Hsel). done.
  - unfold is_correct. rewrite bool_decide_eq_false_2; [done |].
    intros Hne. by apply Hne.
Qed.

End CheckAnswer.

(** ** More on question selection *)

Section SelectionMore.
Context `{StrOps}.

(** X2: when the target is at least the size of the bank, every
    question of the exam is selected, each exactly once. *)
Theorem load_exam_questions_whole_bank rng exam_id student db
    (session : Session) exam :
  get_exam db exam_id = Some exam →
  Z.of_nat (length (questions_of_exam db exam_id))
  ≤ Exam.total_questions exam →
  ∃ selected,
    (load_exam_questions rng exam_id student db session).2
      !! key_question_ids exam_id
    = Some (V_ids (Question.id <$> selected)) ∧
    selected ≡ₚ questions_of_exam db exam_id.
Proof.
  intros Hexam HT.
  set (qs := questions_of_exam db exam_id) in *.
  destruct (random_sample_spec rng qs
              (Z.min (Exam.total_questions exam) (Z.of_nat (length qs))))
    as (selected & rest & Hsample & Hlen & Hperm); [lia |].
  exists selected. unfold load_exam_questions. rewrite Hexam. fold qs.
  rewrite Hsample. simpl. split; [apply lookup_insert_eq |].
  assert (Hrest : rest = []).
  { apply Permutation_length in Hperm. rewrite length_app in Hperm.
    apply length_zero_iff_nil. lia. }
  subst rest. by rewrite app_nil_r in Hperm.
Qed.

End SelectionMore.

(** ** CSV import *)

Section CsvImport.
Context `{StrOps}.

Lemma import_rows_spec exam_id (rows : list (list string)) :
  ∀ db,
    NoDup (Question.id <$> questions db) →
    (∀ q, q ∈ questions db → Question.id q < question_seq db) →
    let db' := foldl (add_row exam_id) db rows in
    NoDup (Question.id <$> questions db') ∧
    (∀ q, q ∈ questions db' → Question.id q < question_seq db') ∧
    exams db' = exams db ∧
    answers db' = answers db ∧
    ∃ added,
      questions db' = questions db ++ added ∧
      (∀ q, q ∈ added →
            Question.exam_id q = exam_id ∧ question_seq db ≤ Question.id q) ∧
      length added
      = length (filter (λ row, row_skipped row = false) rows).
Proof.
  induction rows as [| row rows IH]; intros db Hnd Hbound.
  - simpl. split; [done |]. split; [done |]. split; [done |].
    split; [done |].
    exists []. rewrite app_nil_r. split; [done |]. split; [| done].
    intros q' Hq'. by apply elem_of_nil in Hq'.
  - cbn [foldl].
    destruct (row_skipped row) eqn:Hskip.
    + replace (add_row exam_id db row) with db
        by (unfold add_row; by rewrite Hskip).
      destruct (IH db Hnd Hbound)
        as (Hnd' & Hbound' & Hex & Han & added & Hqs & Hadded & Hlen).
      split; [done |]. split; [done |]. split; [done |]. split; [done |].
      exists added. split; [done |]. split; [done |].
      rewrite filter_cons_False by (by rewrite Hskip). done.
    + set (q0 := question_of_row (question_seq db) exam_id row).
      set (db1 := mkDb (exams db) (questions db ++ [q0]) (answers db)
                    (question_seq db + 1)).
      replace (add_row exam_id db row) with db1
        by (unfold add_row; by rewrite Hskip).
      assert (Hnd1 : NoDup (Question.id <$> questions db1)).
      { simpl. rewrite fmap_app. apply NoDup_app. repeat split; [done | |].
        - intros i Hi Hi'. apply list_elem_of_singleton in Hi'.
          apply list_elem_of_fmap in Hi as (q' & -> & Hq').
          apply Hbound in Hq'. simpl in Hi'. lia.
        - apply NoDup_singleton. }
      assert (Hbound1 :
        ∀ q, q ∈ questions db1 → Question.id q < question_seq db1).
      { simpl. intros q' Hq'. apply elem_of_app in Hq' as [Hq' | Hq'].
        - apply Hbound in Hq'. lia.
        - apply list_elem_of_singleton in Hq' as ->. simpl. lia. }
      destruct (IH db1 Hnd1 Hbound1)
        as (Hnd' & Hbound' & Hex & Han & added & Hqs & Hadded & Hlen).
      split; [done |]. split; [done |]. split; [done |]. split; [done |].
      exists (q0 :: added). simpl in Hqs. rewrite <- app_assoc in Hqs.
      split; [done |]. split.
      * intros q' Hq'. apply elem_of_cons in Hq' as [-> | Hin].
        { simpl. split; [done | lia]. }
        apply Hadded in Hin as [Hown Hge]. simpl in Hge.
        split; [done | lia].
      * rewrite filter_cons_True by done. simpl. by rewrite Hlen.
Qed.

(** X3: importing a file keeps question keys unique and below the
    store's counter, leaves exams, answers and the questions already
    stored as they are, and appends one question of the given exam,
    with a key not handed out before, for every row after the header
    that is neither short nor blank. *)
Theorem load_questions_from_csv_obj_appends file exam_id db :
  NoDup (Question.id <$> questions db) →
  (∀ q, q ∈ questions db → Question.id q < question_seq db) →
  let db' := load_questions_from_csv_obj file exam_id db in
  NoDup (Question.id <$> questions db') ∧
  (∀ q, q ∈ questions db' → Question.id q < question_seq db') ∧
  exams db' = exams db ∧
  answers db' = answers db ∧
  ∃ added,
    questions db' = questions db ++ added ∧
    (∀ q, q ∈ added →
          Question.exam_id q = exam_id ∧ question_seq db ≤ Question.id q) ∧
    length added
    = length (filter (λ row, row_skipped row = false) (tail (rows file))).
Proof.
  intros Hnd Hbound. unfold load_questions_from_csv_obj.
  by apply import_rows_spec.
Qed.

End CsvImport.

(** ** Looking up exams *)

Lemma get_exam_Some db exam_id exam :
  get_exam db exam_id = Some exam →
  Exam.id exam = exam_id ∧ exam ∈ exams db.
Proof.
  unfold get_exam. intros Hfind. apply find_some in Hfind as [Hin Hid].
  apply bool_decide_eq_true in Hid. split; [done |].
  by apply list_elem_of_In.
Qed.

Lemma find_exam_filter (l : list Exam.t) (exam_id deleted : Z) :
  List.find (λ e, bool_decide (Exam.id e = exam_id))
    (filter (λ e, Exam.id e ≠ deleted) l)
  = if decide (exam_id = deleted) then None
    else List.find (λ e, bool_decide (Exam.id e = exam_id)) l.
Proof.
  induction l as [| e l IH]; [by destruct (decide _) |].
  rewrite filter_cons. simpl.
  destruct (decide (Exam.id e ≠ deleted)) as [Hkeep | Hdrop]; simpl.
  - case_bool_decide as Hid.
    + rewrite decide_False by congruence. done.
    + apply IH.
  - rewrite IH. destruct (decide (exam_id = deleted)) as [-> | Hne]; [done |].
    rewrite bool_decide_eq_false_2; [done |].
    intros Hid. apply Hdrop. congruence.
Qed.

(** ** What [result] depends on *)

Section ResultMore.
Context `{StrOps}.

Lemma result_ext name exam_id db1 db2 (session : Session) :
  answers_of db1 (str_strip name) exam_id
  = answers_of db2 (str_strip name) exam_id →
  questions db1 = questions db2 →
  exams db1 = exams db2 →
  result name exam_id db1 session = result name exam_id db2 session.
Proof.
  intros Hanswers Hquestions Hexams.
  unfold result, get_exam. by rewrite Hanswers, Hquestions, Hexams.
Qed.

Lemma result_exam_missing name exam_id db (session : Session) :
  answers_of db (str_strip name) exam_id ≠ [] →
  get_exam db exam_id = None →
  result name exam_id db session = (Raised "AttributeError", session).
Proof.
  intros Hstored Hnone. unfold result.
  destruct (answers_of db (str_strip name) exam_id) as [| a l]; [done |].
  rewrite score_loop, Hnone. done.
Qed.
End ResultMore.

(** ** Deleting an exam *)

Section AdminFacts.
Context `{StrOps}.

(** X4: deleting an existing exam removes the exam, its questions and
    every answer given for it, and leaves the rows of every other exam
    as they are. *)
Theorem delete_exam_removes exam_id db exam :
  get_exam db exam_id = Some exam →
  ∃ db',
    delete_exam exam_id db = Some db' ∧
    get_exam db' exam_id = None ∧
    questions_of_exam db' exam_id = [] ∧
    (∀ student, answers_of db' student exam_id = []) ∧
    ∀ other, other ≠ exam_id →
      get_exam db' other = get_exam db other ∧
      questions_of_exam db' other = questions_of_exam db other ∧
      ∀ student, answers_of db' student other = answers_of db student other.
Proof.
  intros Hexam. apply get_exam_Some in Hexam as Hid. destruct Hid as [Hid _].
  eexists. split; [unfold delete_exam; by rewrite Hexam |].
  rewrite Hid. unfold get_exam, questions_of_exam, answers_of. simpl.
  split; [rewrite find_exam_filter; by rewrite decide_True |].
  split; [apply filter_complement_nil |].
  split.
  - intros student. rewrite list_filter_filter.
    apply elem_of_nil_inv. intros a Ha.
    apply list_elem_of_filter in Ha as [[[_ ?] ?] _]. done.
  - intros other Hother.
    split; [rewrite find_exam_filter; by rewrite decide_False |].
    split.
    + apply list_filter_filter_l. intros q Hq. congruence.
    + intros student. apply list_filter_filter_l.
      intros a [_ Ha]. congruence.
Qed.

(** X5: after an exam is deleted, a submission from a session that
    still holds its question ids is accepted and stored, and the result
    page for it then raises instead of rendering or redirecting. *)
Theorem result_after_delete_exam name exam_id submitted db
    (session session2 : Session) exam ids :
  get_exam db exam_id = Some exam →
  session !! key_question_ids exam_id = Some (V_ids ids) →
  ids ≠ [] →
  session_get_mode session (key_mode exam_id (str_strip name)) ≠ "study" →
  ∃ db1,
    delete_exam exam_id db = Some db1 ∧
    (submit_exam name exam_id submitted db1 session).1.1 = Status_ok ∧
    result name exam_id
      (submit_exam name exam_id submitted db1 session).1.2 session2
    = (Raised "AttributeError", session2).
Proof.
  intros Hexam Hids Hne Hmode.
  apply get_exam_Some in Hexam as Hid. destruct Hid as [Hid _].
  eexists. split; [unfold delete_exam; by rewrite Hexam |].
  rewrite (submit_exam_accepted _ _ _ _ _ _ Hids Hne Hmode). simpl.
  split; [done |].
  apply result_exam_missing.
  - unfold answers_of. simpl. rewrite replaced_rows. by destruct ids.
  - unfold get_exam. simpl. rewrite Hid, find_exam_filter.
    by rewrite decide_True.
Qed.
End AdminFacts.

(** ** From selection to the result page *)

Section EndToEnd.
Context `{StrOps}.

(** What a submission leaves of the rows of other (student, exam)
    pairs, of the questions and of the exams, on every path. *)
Lemma submit_exam_frame name exam_id submitted db (session : Session) :
  let db' := (submit_exam name exam_id submitted db session).1.2 in
  exams db' = exams db ∧
  questions db' = questions db ∧
  ∀ student exam,
    ¬ (student = str_strip name ∧ exam = exam_id) →
    answers_of db' student exam = answers_of db student exam.
Proof.
  unfold submit_exam.
  destruct (session_get_ids session (key_question_ids exam_id))
    as [| qid ids']; [done |].
  destruct (decide (_ ≠ "study")); [| done].
  cbv zeta. cbn [fst snd exams questions].
  split; [done |]. split; [done |].
  intros student exam Hother. unfold answers_of. cbn [answers].
  rewrite filter_app, (filter_fmap_none (answer_of student exam)).
  - rewrite app_nil_r. apply list_filter_filter_l.
    intros a [? ?] [? ?]. apply Hother. split; congruence.
  - intros qid' [? ?]. apply Hother. by split.
Qed.

(** X6: a submission for one (student, exam) pair never changes the
    result page of another pair. *)
Theorem result_unaffected_by_other_submission name exam_id other_name
    other_exam submitted db (session session2 : Session) :
  ¬ (str_strip name = str_strip other_name ∧ exam_id = other_exam) →
  result name exam_id
    (submit_exam other_name other_exam submitted db session).1.2 session2
  = result name exam_id db session2.
Proof.
  intros Hother.
  destruct (submit_exam_frame other_name other_exam submitted db session)
    as (Hexams & Hquestions & Hrows).
  apply result_ext; [by apply Hrows | done | done].
Qed.
End EndToEnd.

(** ** Instances of the further properties on the sample data *)

Lemma check_answer_matches_scoring_witness :
  check_answer (H := ascii_ops) 1 1 " b" db1
  = Some (is_correct (H := ascii_ops) " b" (Question.correct_answer question1),
          if is_correct (H := ascii_ops) " b"
               (Question.correct_answer question1)
          then None
          else Some (ascii_strip (Question.correct_answer question1)))
  ∧ is_correct (H := ascii_ops) unanswered
      (Question.correct_answer question1) = false.
Proof.
  apply (check_answer_matches_scoring (H := ascii_ops) 1 1 " b" db1 exam1
           question1).
  - reflexivity.
  - reflexivity.
  - reflexivity.
  - discriminate.
Defined.

Lemma load_exam_questions_whole_bank_witness :
  ∃ selected,
    (load_exam_questions (H := ascii_ops) rng_second 1 "alice" db_whole ∅).2
      !! key_question_ids 1
    = Some (V_ids (Question.id <$> selected)) ∧
    selected ≡ₚ questions_of_exam db_whole 1.
Proof.
  apply (load_exam_questions_whole_bank (H := ascii_ops) rng_second 1
           "alice" db_whole ∅ exam_all).
  - reflexivity.
  - vm_compute. discriminate.
Defined.

Lemma load_questions_from_csv_obj_appends_witness :
  let db' := load_questions_from_csv_obj (H := ascii_ops) csv_sample 1 db1 in
  NoDup (Question.id <$> questions db') ∧
  (∀ q, q ∈ questions db' → Question.id q < question_seq db') ∧
  exams db' = exams db1 ∧
  answers db' = answers db1 ∧
  ∃ added,
    questions db' = questions db1 ++ added ∧
    (∀ q, q ∈ added →
          Question.exam_id q = 1 ∧ question_seq db1 ≤ Question.id q) ∧
    length added
    = length (filter (λ row, row_skipped (H := ascii_ops) row = false)
                (tail (rows csv_sample))).
Proof.
  apply (load_questions_from_csv_obj_appends (H := ascii_ops) csv_sample 1
           db1).
  - apply (bool_decide_unpack _). vm_compute. exact I.
  - apply Forall_forall.
    change (questions db1) with [question1; question2; question3].
    repeat constructor.
Defined.

Lemma delete_exam_removes_witness :
  ∃ db',
    delete_exam 1 db_answered = Some db' ∧
    get_exam db' 1 = None ∧
    questions_of_exam db' 1 = [] ∧
    (∀ student, answers_of db' student 1 = []) ∧
    ∀ other, other ≠ 1 →
      get_exam db' other = get_exam db_answered other ∧
      questions_of_exam db' other = questions_of_exam db_answered other ∧
      ∀ student,
        answers_of db' student other = answers_of db_answered student other.
Proof.
  apply (delete_exam_removes 1 db_answered exam1). reflexivity.
Defined.

Lemma result_after_delete_exam_witness :
  ∃ db1',
    delete_exam 1 db_answered = Some db1' ∧
    (submit_exam (H := ascii_ops) "alice" 1 submitted1 db1'
       session_loaded).1.1 = Status_ok ∧
    result (H := ascii_ops) "alice" 1
      (submit_exam (H := ascii_ops) "alice" 1 submitted1 db1'
         session_loaded).1.2 ∅
    = (Raised "AttributeError", ∅).
Proof.
  apply (result_after_delete_exam (H := ascii_ops) "alice" 1 submitted1
           db_answered session_loaded ∅ exam1 [1; 3]).
  - reflexivity.
  - vm_compute. reflexivity.
  - discriminate.
  - vm_compute. discriminate.
Defined.

Lemma result_unaffected_by_other_submission_witness :
  result (H := ascii_ops) "bob" 1
    (submit_exam (H := ascii_ops) "alice" 1 submitted1 db_answered
       session_loaded).1.2 ∅
  = result (H := ascii_ops) "bob" 1 db_answered ∅.
Proof.
  apply (result_unaffected_by_other_submission (H := ascii_ops) "bob" 1
           "alice" 1 submitted1 db_answered session_loaded ∅).
  vm_compute. intros [Hname _]. discriminate Hname.
Defined.
